(** * club-member-pages: the list view and the detail view

    A shallow embedding of the two client components of the application,
    [HomePage] (src/app/page.tsx, the member list) and [UserPage] (the
    dynamic route /users/[slug], the member's own markup and stylesheet),
    and the properties of their loading / failed / content state machines.

    Each component is a React function component: a tuple of state
    variables, one effect that starts an asynchronous function, and a
    render function of the state.  The asynchronous function is embedded
    as a resumable computation: it runs until its next [await], is
    suspended there, and is resumed when the awaited promise settles.
    Network requests and console output are recorded in an effect log. *)

From Stdlib Require Import Ascii String.
From stdpp Require Import base option list strings.

Set Warnings "-register-all".

Local Open Scope string_scope.

(** ** JavaScript values shared by both components *)

(** The value caught by [catch (err: any)]: an error object, of which the
    code reads [err.message] only. *)
Record JsError := mkError { message : string }.

(** Truthiness of a string: every string but the empty one. *)
Definition truthy (s : string) : bool := negb (String.eqb s "").

(** [s || d] on strings. *)
Definition or_default (s d : string) : string := if truthy s then s else d.

(** What the components do to the outside world, in order. *)
Inductive Effect :=
  | Fetch (url : string)
  | ConsoleWarn (msg : string)
  | ConsoleError (msg : string) (err : JsError).

(** The paths requested, in order. *)
Fixpoint fetches (es : list Effect) : list string :=
  match es with
  | [] => []
  | Fetch url :: es' => url :: fetches es'
  | _ :: es' => fetches es'
  end.

(** The error objects passed to [console.error], in order. *)
Fixpoint console_errors (es : list Effect) : list JsError :=
  match es with
  | [] => []
  | ConsoleError _ err :: es' => err :: console_errors es'
  | _ :: es' => console_errors es'
  end.

(** * The detail view: UserPage *)
Module UserPage.

(** The four [useState] variables. *)
Record State := mkState {
  htmlContent : string;
  cssContent : string;
  isLoading : bool;
  error : option string
}.

Definition initial : State :=
  {| htmlContent := ""; cssContent := ""; isLoading := true; error := None |}.

Definition setHtmlContent (h : string) (st : State) : State :=
  {| htmlContent := h; cssContent := cssContent st;
     isLoading := isLoading st; error := error st |}.
Definition setCssContent (k : string) (st : State) : State :=
  {| htmlContent := htmlContent st; cssContent := k;
     isLoading := isLoading st; error := error st |}.
Definition setIsLoading (b : bool) (st : State) : State :=
  {| htmlContent := htmlContent st; cssContent := cssContent st;
     isLoading := b; error := error st |}.
Definition setError (e : option string) (st : State) : State :=
  {| htmlContent := htmlContent st; cssContent := cssContent st;
     isLoading := isLoading st; error := e |}.

(** The template literals of the two resource paths. *)
Definition htmlUrl (slug : string) : string :=
  "/user_pages/" +:+ slug +:+ "/index.html".
Definition cssUrl (slug : string) : string :=
  "/user_pages/" +:+ slug +:+ "/style.css".

Definition htmlMissing (slug : string) : JsError :=
  mkError ("HTMLファイルが見つかりません: /user_pages/" +:+ slug +:+ "/index.html").
Definition cssMissingWarning (slug : string) : string :=
  "CSSファイルが見つかりません: /user_pages/" +:+ slug +:+ "/style.css。CSSは適用されません。".
Definition loadFailed (err : JsError) : string :=
  "ページコンテンツの読み込みに失敗しました: " +:+ or_default (message err) "不明なエラー".

(** The [await] at which an invocation of [fetchUserPageContent] is
    suspended. *)
Inductive Await :=
  | AwaitHtmlFetch   (* await fetch(`/user_pages/${slug}/index.html`) *)
  | AwaitHtmlText    (* await htmlResponse.text() *)
  | AwaitCssFetch    (* await fetch(`/user_pages/${slug}/style.css`) *)
  | AwaitCssText.    (* await cssResponse.text() *)

(** A suspended invocation: the [slug] its closure captured, and where
    it waits. *)
Record Run := mkRun { run_slug : string; run_at : Await }.

(** How an awaited promise settles. *)
Inductive Settled :=
  | Response (ok : bool)     (* fetch fulfils with a response *)
  | Text (body : string)     (* text() fulfils with the body *)
  | Rejects (err : JsError). (* the promise rejects *)

(** The mounted component: the current route parameter, the state
    variables, the invocations in flight, and the effect log. *)
Record Component := mkComponent {
  slug : option string;
  state : State;
  pending : list Run;
  effects : list Effect
}.

Definition update (f : State -> State) (c : Component) : Component :=
  {| slug := slug c; state := f (state c);
     pending := pending c; effects := effects c |}.
Definition emit (e : Effect) (c : Component) : Component :=
  {| slug := slug c; state := state c;
     pending := pending c; effects := effects c ++ [e] |}.
Definition with_pending (p : list Run) (c : Component) : Component :=
  {| slug := slug c; state := state c; pending := p; effects := effects c |}.
Definition with_slug (s : option string) (c : Component) : Component :=
  {| slug := s; state := state c; pending := pending c; effects := effects c |}.

(** [finally { setIsLoading(false) }] *)
Definition finally (c : Component) : Component := update (setIsLoading false) c.

(** The [catch] block, followed by [finally]. *)
Definition catch (err : JsError) (c : Component) : Component :=
  finally
    (update (setError (Some (loadFailed err)))
       (emit (ConsoleError "コンテンツの読み込み中にエラーが発生しました:" err) c)).

(** Resuming a suspended invocation with the outcome of its [await]:
    the component after the code ran to the next [await] ([Some] of it)
    or to the end of the function ([None]).  No result when the outcome
    is not one the awaited promise can have. *)
Definition resume (r : Run) (o : Settled) (c : Component)
  : option (Component * option Await) :=
  match run_at r, o with
  | AwaitHtmlFetch, Response true => Some (c, Some AwaitHtmlText)
  | AwaitHtmlFetch, Response false => Some (catch (htmlMissing (run_slug r)) c, None)
  | AwaitHtmlText, Text h =>
      Some (emit (Fetch (cssUrl (run_slug r))) (update (setHtmlContent h) c),
            Some AwaitCssFetch)
  | AwaitCssFetch, Response true => Some (c, Some AwaitCssText)
  | AwaitCssFetch, Response false =>
      Some (finally
              (update (setCssContent "")
                 (emit (ConsoleWarn (cssMissingWarning (run_slug r))) c)),
            None)
  | AwaitCssText, Text k => Some (finally (update (setCssContent k) c), None)
  | _, Rejects err => Some (catch err c, None)
  | _, _ => None
  end.

(** The call [fetchUserPageContent()]: the code up to the first
    [await]. *)
Definition fetchUserPageContent (s : string) (c : Component) : Component :=
  let c := update (setError None) (update (setIsLoading true) c) in
  with_pending (pending c ++ [mkRun s AwaitHtmlFetch]) (emit (Fetch (htmlUrl s)) c).

(** [!slug] *)
Definition no_slug (s : option string) : bool :=
  match s with
  | Some s => negb (truthy s)
  | None => true
  end.

(** The body of the effect. *)
Definition effect (c : Component) : Component :=
  if no_slug (slug c) then update (setIsLoading false) c
  else
    match slug c with
    | Some s => fetchUserPageContent s c
    | None => c
    end.

(** Mounting: the state variables take their initial values and the
    effect runs once. *)
Definition mount (s : option string) : Component :=
  effect {| slug := s; state := initial; pending := []; effects := [] |}.

(** Comparison of the dependency array [[slug]] between two renders. *)
Definition same_slug (s t : option string) : bool :=
  match s, t with
  | Some a, Some b => String.eqb a b
  | None, None => true
  | _, _ => false
  end.

(** What can happen to a mounted component: the route parameter becomes
    [s], or the promise awaited by the [i]-th invocation in flight
    settles. *)
Inductive Event :=
  | Navigate (s : option string)
  | Settle (i : nat) (o : Settled).

Definition step (c : Component) (ev : Event) : option Component :=
  match ev with
  | Navigate s =>
      if same_slug s (slug c) then Some c else Some (effect (with_slug s c))
  | Settle i o =>
      match pending c !! i with
      | Some r =>
          match resume r o c with
          | Some (c', Some a) =>
              Some (with_pending (<[i := mkRun (run_slug r) a]> (pending c')) c')
          | Some (c', None) => Some (with_pending (delete i (pending c')) c')
          | None => None
          end
      | None => None
      end
  end.

Fixpoint run_events (c : Component) (evs : list Event) : option Component :=
  match evs with
  | [] => Some c
  | ev :: evs' =>
      match step c ev with
      | Some c' => run_events c' evs'
      | None => None
      end
  end.

(** What the component returns. *)
Inductive View :=
  | LoadingView
  | ErrorView (msg : string)
  | ContentView (css html : string).

Definition render (st : State) : View :=
  if isLoading st then LoadingView
  else
    match error st with
    | Some e => if truthy e then ErrorView e else ContentView (cssContent st) (htmlContent st)
    | None => ContentView (cssContent st) (htmlContent st)
    end.

(** The views displayed after each event of a trace. *)
Fixpoint views (c : Component) (evs : list Event) : list View :=
  match evs with
  | [] => []
  | ev :: evs' =>
      match step c ev with
      | Some c' => render (state c') :: views c' evs'
      | None => []
      end
  end.

(** ** Vocabulary of the properties *)

(** The event leaves the route parameter at [x]. *)
Definition stays_on (x : string) (ev : Event) : Prop :=
  match ev with
  | Navigate s => s = Some x
  | Settle _ _ => True
  end.

(** The outcomes delivered by a trace, in order. *)
Fixpoint settles (evs : list Event) : list Settled :=
  match evs with
  | [] => []
  | Navigate _ :: evs' => settles evs'
  | Settle _ o :: evs' => o :: settles evs'
  end.

(** The component of a mount on [x] whose only invocation received the
    outcomes [os]. *)
Definition outcome_of (x : string) (os : list Settled) : option Component :=
  run_events (mount (Some x)) (map (Settle 0) os).

(** The requests that are in the effect log. *)
Definition requested (url : string) (c : Component) : Prop :=
  In (Fetch url) (effects c).

(** The ways the stylesheet request can end once the markup is there. *)
Inductive StylesheetOutcome :=
  | CssMissing                      (* non-success status *)
  | CssLoaded (k : string)          (* success status, body read *)
  | CssFetchRejected (err : JsError)
  | CssBodyRejected (err : JsError).

Definition stylesheet_events (o : StylesheetOutcome) : list Event :=
  match o with
  | CssMissing => [Settle 0 (Response false)]
  | CssLoaded k => [Settle 0 (Response true); Settle 0 (Text k)]
  | CssFetchRejected err => [Settle 0 (Rejects err)]
  | CssBodyRejected err => [Settle 0 (Response true); Settle 0 (Rejects err)]
  end.

(** The view the component ends in, given the markup [h]. *)
Definition view_after_stylesheet (h : string) (o : StylesheetOutcome) : View :=
  match o with
  | CssMissing => ContentView "" h
  | CssLoaded k => ContentView k h
  | CssFetchRejected err | CssBodyRejected err => ErrorView (loadFailed err)
  end.

(** The request an invocation in flight waits for; reading the body
    belongs to the request. *)
Definition awaited (r : Run) : string :=
  match run_at r with
  | AwaitHtmlFetch | AwaitHtmlText => htmlUrl (run_slug r)
  | AwaitCssFetch | AwaitCssText => cssUrl (run_slug r)
  end.

Definition outstanding (url : string) (c : Component) : Prop :=
  In url (map awaited (pending c)).

(** A request has resolved: it was made and nothing waits for it. *)
Definition resolved (url : string) (c : Component) : Prop :=
  requested url c /\ ~ outstanding url c.

(** A late response of [x] leaves the state variables alone once the route
    is on [y]. *)
Definition discards_late_response (x y : string) : Prop :=
  forall h c1 c2,
    run_events (mount (Some x)) [Navigate (Some y); Settle 0 (Response true)] = Some c1 ->
    step c1 (Settle 0 (Text h)) = Some c2 ->
    state c2 = state c1.

(** No way the stylesheet request ends gives the error view. *)
Definition stylesheet_never_fails_view (x : string) : Prop :=
  forall h o c msg,
    run_events (mount (Some x))
      (Settle 0 (Response true) :: Settle 0 (Text h) :: stylesheet_events o) = Some c ->
    render (state c) <> ErrorView msg.

(** The stylesheet request did not deliver a stylesheet. *)
Definition stylesheet_failed (o : StylesheetOutcome) : bool :=
  match o with
  | CssLoaded _ => false
  | CssMissing | CssFetchRejected _ | CssBodyRejected _ => true
  end.

(** Whenever the stylesheet request fails, the markup is shown with the
    empty stylesheet. *)
Definition unstyled_whenever_stylesheet_fails (x : string) : Prop :=
  forall h o c,
    stylesheet_failed o = true ->
    run_events (mount (Some x))
      (Settle 0 (Response true) :: Settle 0 (Text h) :: stylesheet_events o) = Some c ->
    render (state c) = ContentView "" h.

(** While the route is on [y], content is shown only with both requests
    of [y] resolved. *)
Definition ready_only_when_resolved (y : string) : Prop :=
  forall s evs c k h,
    run_events (mount s) evs = Some c ->
    slug c = Some y ->
    render (state c) = ContentView k h ->
    resolved (htmlUrl y) c /\ resolved (cssUrl y) c.

(** The outcomes of an invocation, the [i]-th in flight, whose two
    requests succeed with the bodies [h] and [k]. *)
Definition success_events (i : nat) (h k : string) : list Event :=
  [Settle i (Response true); Settle i (Text h);
   Settle i (Response true); Settle i (Text k)].

(** The events that deliver the outcomes [ds], each to the invocation at
    the given position. *)
Definition deliveries (ds : list (nat * Settled)) : list Event :=
  map (fun d => Settle (fst d) (snd d)) ds.

(** What every component reached from a mount satisfies: an error held
    in the state was built by the [catch] block, and the loading flag is
    down whenever no invocation is in flight. *)
Definition coherent (c : Component) : Prop :=
  (forall m, error (state c) = Some m -> exists err, m = loadFailed err)
  /\ (pending c = [] -> isLoading (state c) = false).

(** The last character of a string. *)
Fixpoint last_char (s : string) : option ascii :=
  match s with
  | "" => None
  | String a "" => Some a
  | String _ s' => last_char s'
  end.

End UserPage.

(** * The list view: HomePage *)

(** ** The values [response.json()] can produce

    The annotation [UserSlug[]] on the parsed body is erased at run time,
    so the state variable [userSlugs] holds whatever JSON value the body
    denotes.  A number is represented by the string that JavaScript's
    number-to-string conversion gives it (one string per number, the two
    zeros sharing ["0"]); an object by its own properties, each key
    once. *)
Inductive json :=
  | JNull
  | JBool (b : bool)
  | JNum (repr : string)
  | JStr (s : string)
  | JArr (items : list json)
  | JObj (props : list (string * json)).

Fixpoint own_property (k : string) (props : list (string * json)) : option json :=
  match props with
  | [] => None
  | (k', v) :: props' => if String.eqb k k' then Some v else own_property k props'
  end.

(** String conversion, as the template literal applies it; no result when
    it throws a [TypeError] (an object whose own [toString] property hides
    the inherited method, no JSON value being callable). *)
Fixpoint ToString (v : json) : option string :=
  match v with
  | JNull => Some "null"
  | JBool true => Some "true"
  | JBool false => Some "false"
  | JNum repr => Some repr
  | JStr s => Some s
  | JArr items =>
      (* Array.prototype.join: null elements give the empty string *)
      let element (v : json) : option string :=
        match v with
        | JNull => Some ""
        | _ => ToString v
        end in
      (fix join (l : list json) : option string :=
         match l with
         | [] => Some ""
         | [v] => element v
         | v :: l' =>
             match element v, join l' with
             | Some s, Some t => Some (s +:+ "," +:+ t)
             | _, _ => None
             end
         end) items
  | JObj props =>
      match own_property "toString" props with
      | Some _ => None
      | None => Some "[object Object]"
      end
  end.

(** [v.length === 0]; no result when reading the property throws. *)
Definition length_is_zero (v : json) : option bool :=
  match v with
  | JNull => None
  | JBool _ | JNum _ => Some false
  | JStr s => Some (String.eqb s "")
  | JArr items => Some (Nat.eqb (length items) 0)
  | JObj props =>
      match own_property "length" props with
      | Some (JNum repr) => Some (String.eqb repr "0")
      | _ => Some false
      end
  end.

Definition is_string (v : json) : bool :=
  match v with
  | JStr _ => true
  | _ => false
  end.

(** A JSON array of strings, the shape the list resource is meant to have. *)
Definition is_string_array (v : json) : bool :=
  match v with
  | JArr items => forallb is_string items
  | _ => false
  end.

Module HomePage.

(** The three [useState] variables. *)
Record State := mkState {
  userSlugs : json;
  isLoading : bool;
  error : option string
}.

Definition initial : State :=
  {| userSlugs := JArr []; isLoading := true; error := None |}.

Definition setUserSlugs (v : json) (st : State) : State :=
  {| userSlugs := v; isLoading := isLoading st; error := error st |}.
Definition setIsLoading (b : bool) (st : State) : State :=
  {| userSlugs := userSlugs st; isLoading := b; error := error st |}.
Definition setError (e : option string) (st : State) : State :=
  {| userSlugs := userSlugs st; isLoading := isLoading st; error := e |}.

Definition listUrl : string := "/user_list.json".

Definition listMissing : JsError :=
  mkError "ユーザーリストの読み込みに失敗しました。ファイルが存在するか確認してください。".
Definition unknownFailure : string :=
  "ユーザーリストの読み込み中に不明なエラーが発生しました。".

(** The [await] at which [fetchUsers] is suspended. *)
Inductive Await :=
  | AwaitFetch    (* await fetch('/user_list.json') *)
  | AwaitJson.    (* await response.json() *)

Inductive Settled :=
  | Response (ok : bool)     (* fetch fulfils with a response *)
  | Json (data : json)       (* json() fulfils with the parsed body *)
  | Rejects (err : JsError). (* the promise rejects; json() does on a
                                body that is not JSON *)

(** The mounted component.  The effect has an empty dependency array, so
    at most one invocation of [fetchUsers] exists per mount. *)
Record Component := mkComponent {
  state : State;
  pending : option Await;
  effects : list Effect
}.

Definition update (f : State -> State) (c : Component) : Component :=
  {| state := f (state c); pending := pending c; effects := effects c |}.
Definition emit (e : Effect) (c : Component) : Component :=
  {| state := state c; pending := pending c; effects := effects c ++ [e] |}.
Definition with_pending (p : option Await) (c : Component) : Component :=
  {| state := state c; pending := p; effects := effects c |}.

Definition finally (c : Component) : Component := update (setIsLoading false) c.

Definition catch (err : JsError) (c : Component) : Component :=
  finally
    (update (setError (Some (or_default (message err) unknownFailure)))
       (emit (ConsoleError "ユーザーリストのフェッチエラー:" err) c)).

Definition resume (a : Await) (o : Settled) (c : Component)
  : option (Component * option Await) :=
  match a, o with
  | AwaitFetch, Response true => Some (c, Some AwaitJson)
  | AwaitFetch, Response false => Some (catch listMissing c, None)
  | AwaitJson, Json data => Some (finally (update (setUserSlugs data) c), None)
  | _, Rejects err => Some (catch err c, None)
  | _, _ => None
  end.

(** Mounting: initial state, then the effect calls [fetchUsers()]. *)
Definition mount : Component :=
  with_pending (Some AwaitFetch)
    (emit (Fetch listUrl) {| state := initial; pending := None; effects := [] |}).

(** The awaited promise settles. *)
Definition step (c : Component) (o : Settled) : option Component :=
  match pending c with
  | Some a =>
      match resume a o c with
      | Some (c', k) => Some (with_pending k c')
      | None => None
      end
  | None => None
  end.

Fixpoint run_events (c : Component) (os : list Settled) : option Component :=
  match os with
  | [] => Some c
  | o :: os' =>
      match step c o with
      | Some c' => run_events c' os'
      | None => None
      end
  end.

(** The props of one rendered [Link] and what it wraps. *)
Record LinkTo := mkLink { key : json; href : string; label : json }.

Inductive View :=
  | LoadingView
  | ErrorView (msg : string)
  | EmptyView                        (* the "no members yet" paragraph *)
  | ListView (links : list LinkTo).  (* the grid of links *)

(** What React accepts as a child of an element: text, numbers, values
    that render nothing (booleans, null) and arrays of such; an object is
    refused with an error. *)
Fixpoint valid_child (v : json) : bool :=
  match v with
  | JObj _ => false
  | JArr items => forallb valid_child items
  | _ => true
  end.

(** The callback of [userSlugs.map]: the link for one item; no result
    when the template literal of [href] throws, or when the item cannot
    be the child of the heading. *)
Definition link (v : json) : option LinkTo :=
  match ToString v with
  | Some s =>
      if valid_child v
      then Some {| key := v; href := "/users/" +:+ s; label := v |}
      else None
  | None => None
  end.

(** What the component shows; no result when evaluating the component
    or rendering what it returns throws. *)
Definition render (st : State) : option View :=
  if isLoading st then Some LoadingView
  else
    let list_or_empty :=
      match length_is_zero (userSlugs st) with
      | Some true => Some EmptyView
      | Some false =>
          match userSlugs st with
          | JArr items => ListView <$> mapM link items
          | _ => None   (* [userSlugs.map] is not a function *)
          end
      | None => None
      end in
    match error st with
    | Some e => if truthy e then Some (ErrorView e) else list_or_empty
    | None => list_or_empty
    end.

(** The links a view shows. *)
Definition links_of (v : View) : list LinkTo :=
  match v with
  | ListView links => links
  | _ => []
  end.

(** ** Vocabulary of the properties *)

(** The link the view shows for the identifier [s]. *)
Definition link_to (s : string) : LinkTo :=
  {| key := JStr s; href := "/users/" +:+ s; label := JStr s |}.

(** The outcomes [os] end in the failed state with a non-empty message. *)
Definition failure_reported (os : list Settled) : Prop :=
  exists c m,
    run_events mount os = Some c
    /\ render (state c) = Some (ErrorView m)
    /\ m <> "".

(** The failures the code detects. *)
Inductive ListFailure :=
  | BadStatus                   (* non-success status *)
  | NotJson (err : JsError).    (* json() rejects with a SyntaxError *)

Definition failure_events (f : ListFailure) : list Settled :=
  match f with
  | BadStatus => [Response false]
  | NotJson err => [Response true; Rejects err]
  end.

End HomePage.

(** * Properties of the detail view *)
Module UserPageProps.
Import UserPage.

(** ** Basic facts *)

Lemma eqb_same (s : string) : String.eqb s s = true.
Proof. apply String.eqb_refl. Qed.

Lemma mount_on (x : string) :
  truthy x = true ->
  mount (Some x) =
    {| slug := Some x; state := initial;
       pending := [mkRun x AwaitHtmlFetch];
       effects := [Fetch (htmlUrl x)] |}.
Proof.
  intros Hx. unfold mount, effect, no_slug. simpl. rewrite Hx. reflexivity.
Qed.

Lemma truthy_loadFailed (err : JsError) : truthy (loadFailed err) = true.
Proof. reflexivity. Qed.

Lemma loadFailed_htmlMissing (x : string) :
  loadFailed (htmlMissing x) =
    "ページコンテンツの読み込みに失敗しました: HTMLファイルが見つかりません: " +:+ htmlUrl x.
Proof. reflexivity. Qed.

Lemma append_inj_l (p s t : string) : p +:+ s = p +:+ t -> s = t.
Proof.
  induction p as [|a p IH]; simpl; [tauto|].
  intros H. injection H as H. auto.
Qed.

Lemma last_char_append (s : string) (a : ascii) (t : string) :
  last_char (s +:+ String a t) = last_char (String a t).
Proof.
  induction s as [|b s IH]; [reflexivity|].
  change (String b s +:+ String a t) with (String b (s +:+ String a t)).
  rewrite <- IH. destruct s; reflexivity.
Qed.

Lemma Fetch_inj (u v : string) : Fetch u = Fetch v -> u = v.
Proof. intros H. now injection H. Qed.

Lemma urls_differ (x y : string) : cssUrl x <> htmlUrl y.
Proof.
  unfold cssUrl, htmlUrl. intros H. apply append_inj_l in H.
  apply (f_equal last_char) in H.
  rewrite !last_char_append in H. discriminate.
Qed.

(** ** A component with nothing in flight *)

Lemma step_navigate_same (c : Component) (x : string) :
  slug c = Some x -> step c (Navigate (Some x)) = Some c.
Proof. intros Hs. simpl. rewrite Hs. simpl. now rewrite eqb_same. Qed.

Lemma step_settle_idle (c : Component) (i : nat) (o : Settled) :
  pending c = [] -> step c (Settle i o) = None.
Proof. intros Hp. simpl. now rewrite Hp. Qed.

(** Once no invocation is in flight, nothing changes for as long as the
    route parameter stays the same. *)
Lemma idle_is_final (c : Component) (x : option string) (evs : list Event) (c' : Component) :
  slug c = x -> pending c = [] ->
  Forall (fun ev => match ev with Navigate s => s = x | Settle _ _ => True end) evs ->
  run_events c evs = Some c' -> c' = c.
Proof.
  intros Hs Hp Hevs. induction Hevs as [|ev evs Hev _ IH]; simpl.
  - congruence.
  - destruct ev as [s|i o].
    + subst s. simpl. rewrite Hs.
      replace (same_slug x x) with true; [exact IH|].
      destruct x; simpl; [now rewrite eqb_same | reflexivity].
    + now rewrite step_settle_idle.
Qed.

(** ** C1 *)

(** The route changes to [x] from anything else: the effect runs again
    and calls [fetchUserPageContent]. *)
Lemma step_navigate_to (c : Component) (x : string) :
  slug c <> Some x -> truthy x = true ->
  step c (Navigate (Some x)) = Some (fetchUserPageContent x (with_slug (Some x) c)).
Proof.
  intros Hs Hx. cbn [step].
  assert (Hne : same_slug (Some x) (slug c) = false).
  { destruct (slug c) as [z|]; [|reflexivity]. simpl.
    destruct (String.eqb x z) eqn:Heq; [|reflexivity].
    apply String.eqb_eq in Heq. subst z. now destruct Hs. }
  rewrite Hne. unfold effect, no_slug. simpl. now rewrite Hx.
Qed.

(** C1, as the claim states it, fails: a stylesheet request that rejects
    has failed, and with the markup of "a" fetched it gives the error
    view, not the markup with the empty stylesheet. *)
Lemma rejected_stylesheet_is_not_unstyled : ~ unstyled_whenever_stylesheet_fails "a".
Proof.
  intros H.
  specialize (H "<p>a</p>" (CssFetchRejected (mkError "Failed to fetch")) _ eq_refl eq_refl).
  discriminate H.
Qed.

(** C1, amended. For every non-empty identifier [x], in a view with
    nothing else in flight (freshly mounted on [x], or reaching [x] from
    another route with no invocation in flight, whatever markup,
    stylesheet or error its state held): when the markup request
    resolves with a success status and body [h], and the stylesheet
    request resolves with a non-success status, the view shows loading
    until then and afterwards the content view of [h] with the stylesheet
    set to the empty string; the state has no error; and what is added to
    the effect log is the two requests and one [console.warn], nothing
    else (no [console.error]). *)
Theorem stylesheet_missing_empties_stylesheet (c0 : Component) (x h : string) :
  truthy x = true ->
  pending c0 = [] ->
  slug c0 <> Some x ->
  let missing := [Settle 0 (Response true); Settle 0 (Text h); Settle 0 (Response false)] in
  let unstyled := {| htmlContent := h; cssContent := ""; isLoading := false; error := None |} in
  let log := [Fetch (htmlUrl x); Fetch (cssUrl x); ConsoleWarn (cssMissingWarning x)] in
  (exists c,
     run_events (mount (Some x)) missing = Some c
     /\ views (mount (Some x)) missing = [LoadingView; LoadingView; ContentView "" h]
     /\ state c = unstyled
     /\ effects c = log
     /\ pending c = [])
  /\ (exists c,
        run_events c0 (Navigate (Some x) :: missing) = Some c
        /\ views c0 (Navigate (Some x) :: missing) =
             [LoadingView; LoadingView; LoadingView; ContentView "" h]
        /\ state c = unstyled
        /\ effects c = (effects c0 ++ log)%list
        /\ pending c = []).
Proof.
  intros Hx Hp Hs missing unstyled log. subst missing unstyled log. split.
  - rewrite (mount_on x Hx). eexists. repeat split; reflexivity.
  - unfold run_events at 1, views at 1.
    rewrite (step_navigate_to c0 x Hs Hx).
    destruct c0 as [s0 st0 p0 log0]. cbn [pending] in Hp. subst p0.
    eexists. split; [reflexivity|]. split; [reflexivity|]. split; [reflexivity|].
    split; [|reflexivity].
    cbn [effects fetchUserPageContent with_slug with_pending emit update finally
         run_events step resume]. cbn. now rewrite <- !app_assoc.
Qed.

Lemma stylesheet_missing_empties_stylesheet_witness :
  exists c,
    run_events
      {| slug := Some "a";
         state := {| htmlContent := "<p>a</p>"; cssContent := "p{color:red}";
                     isLoading := false; error := None |};
         pending := [];
         effects := [Fetch (htmlUrl "a"); Fetch (cssUrl "a")] |}
      [Navigate (Some "b"); Settle 0 (Response true); Settle 0 (Text "<p>b</p>");
       Settle 0 (Response false)] = Some c
    /\ render (state c) = ContentView "" "<p>b</p>".
Proof.
  destruct (stylesheet_missing_empties_stylesheet
              {| slug := Some "a";
                 state := {| htmlContent := "<p>a</p>"; cssContent := "p{color:red}";
                             isLoading := false; error := None |};
                 pending := [];
                 effects := [Fetch (htmlUrl "a"); Fetch (cssUrl "a")] |}
              "b" "<p>b</p>" eq_refl eq_refl)
    as (_ & c & Hrun & _ & Hst & _).
  - discriminate.
  - exists c. split; [exact Hrun|]. rewrite Hst. reflexivity.
Defined.

(** The trace that tells an emptied stylesheet from one left alone: the
    stylesheet of "a" is loaded, the route changes to "b", whose
    stylesheet is missing; the markup of "b" is shown unstyled. *)
Example stylesheet_of_previous_identifier_is_dropped :
  exists c,
    run_events (mount (Some "a"))
      (success_events 0 "<p>a</p>" "p{color:red}" ++
       [Navigate (Some "b"); Settle 0 (Response true); Settle 0 (Text "<p>b</p>");
        Settle 0 (Response false)]) = Some c
    /\ render (state c) = ContentView "" "<p>b</p>".
Proof.
  exists {| slug := Some "b";
            state := {| htmlContent := "<p>b</p>"; cssContent := "";
                        isLoading := false; error := None |};
            pending := [];
            effects := [Fetch (htmlUrl "a"); Fetch (cssUrl "a");
                        Fetch (htmlUrl "b"); Fetch (cssUrl "b");
                        ConsoleWarn (cssMissingWarning "b")] |}.
  split; reflexivity.
Qed.

(** ** C2 *)

(** C2. For every identifier [x]: when the markup request resolves with
    a non-success status, the view goes from loading to the error view,
    whose message ends with the path /user_pages/x/index.html; the markup
    state variable still holds the empty string; exactly one request was
    made; and whatever happens afterwards while the route stays on [x]
    leaves the component as it is (no second request, no content
    view). *)
Theorem markup_missing_is_fatal (x : string) :
  truthy x = true ->
  exists c,
    step (mount (Some x)) (Settle 0 (Response false)) = Some c
    /\ render (state (mount (Some x))) = LoadingView
    /\ render (state c) =
         ErrorView ("ページコンテンツの読み込みに失敗しました: HTMLファイルが見つかりません: "
                    +:+ htmlUrl x)
    /\ htmlUrl x = "/user_pages/" +:+ x +:+ "/index.html"
    /\ htmlContent (state c) = ""
    /\ effects c =
         [Fetch (htmlUrl x);
          ConsoleError "コンテンツの読み込み中にエラーが発生しました:" (htmlMissing x)]
    /\ forall evs c', Forall (stays_on x) evs -> run_events c evs = Some c' -> c' = c.
Proof.
  intros Hx. rewrite (mount_on x Hx).
  eexists. split; [reflexivity|]. repeat split.
  intros evs c' Hevs Hrun.
  eapply idle_is_final; [| |exact Hevs|exact Hrun]; reflexivity.
Qed.

Lemma markup_missing_is_fatal_witness :
  truthy "tanaka" = true
  /\ exists c,
    step (mount (Some "tanaka")) (Settle 0 (Response false)) = Some c
    /\ render (state c) =
         ErrorView "ページコンテンツの読み込みに失敗しました: HTMLファイルが見つかりません: /user_pages/tanaka/index.html".
Proof.
  split; [reflexivity|].
  destruct (markup_missing_is_fatal "tanaka" eq_refl) as (c & Hstep & _ & Hview & _).
  exists c. split; [exact Hstep | exact Hview].
Defined.

(** ** C9 *)

(** C9. When the route parameter yields no identifier (absent, or the
    empty string), mounting makes no request, leaves nothing in flight,
    and the view is the content view with empty markup and empty
    stylesheet; no later event changes that while the parameter stays
    as it is. *)
Theorem no_identifier_settles_empty (s : option string) :
  no_slug s = true ->
  effects (mount s) = []
  /\ pending (mount s) = []
  /\ render (state (mount s)) = ContentView "" ""
  /\ forall evs c,
       Forall (fun ev => match ev with Navigate t => t = s | Settle _ _ => True end) evs ->
       run_events (mount s) evs = Some c -> c = mount s.
Proof.
  intros Hs.
  assert (Hm : mount s =
               {| slug := s;
                  state := {| htmlContent := ""; cssContent := "";
                              isLoading := false; error := None |};
                  pending := []; effects := [] |}).
  { unfold mount, effect. simpl. rewrite Hs. reflexivity. }
  rewrite Hm. repeat split.
  intros evs c Hevs Hrun.
  eapply idle_is_final; [| |exact Hevs|exact Hrun]; reflexivity.
Qed.

Lemma no_identifier_settles_empty_witness :
  no_slug (Some "") = true
  /\ effects (mount (Some "")) = []
  /\ render (state (mount (Some ""))) = ContentView "" "".
Proof.
  split; [reflexivity|].
  destruct (no_identifier_settles_empty (Some "") eq_refl) as (He & _ & Hv & _).
  split; [exact He | exact Hv].
Defined.

(** ** C3 *)

(** Whether an invocation is resumed, and what it then does to the state
    variables, the invocations in flight and the effect log, does not
    depend on the current route parameter: the code compares the
    captured [slug] with nothing. *)
Lemma settle_ignores_route (c : Component) (t : option string) (i : nat) (o : Settled) :
  step (with_slug t c) (Settle i o) = with_slug t <$> step c (Settle i o).
Proof.
  simpl. destruct (pending c !! i) as [r|]; [|reflexivity].
  destruct r as [y []]; destruct o as [[]| |]; reflexivity.
Qed.

(** C3, as the claim states it, fails: mounted on "a", the route changes
    to "b" while the markup request of "a" is in flight; the late response
    of "a" is not discarded, it changes the state variables. *)
Lemma late_response_overwrites_new_identifier : ~ discards_late_response "a" "b".
Proof.
  intros H. specialize (H "<p>a</p>" _ _ eq_refl eq_refl). discriminate H.
Qed.

(** The same trace, continued: once the invocation for "a" finishes, the
    view shows the markup and stylesheet of "a" although the identifier is
    "b" and the request of "b" is still in flight. *)
Example stale_content_shown_for_new_identifier :
  exists c,
    run_events (mount (Some "a"))
      [Navigate (Some "b"); Settle 0 (Response true); Settle 0 (Text "<p>a</p>");
       Settle 0 (Response true); Settle 0 (Text "p{}")] = Some c
    /\ slug c = Some "b"
    /\ pending c = [mkRun "b" AwaitHtmlFetch]
    /\ render (state c) = ContentView "p{}" "<p>a</p>".
Proof. eexists. repeat split; reflexivity. Qed.

(** C3, amended. For identifiers [x] and [y] with [x] distinct from
    [y]: when the route changes from [x] to [y] while the markup request
    of [x] is in flight, the late response of [x] is not discarded; its
    body [h] becomes the markup held in the state under the identifier
    [y], and when the invocation for [x] finishes with the stylesheet
    [k], the view leaves loading and shows [h] and [k] while the
    invocation for [y] still waits for its markup. *)
Theorem late_response_is_applied (x y h k : string) :
  truthy x = true -> truthy y = true -> x <> y ->
  exists c1 c2,
    run_events (mount (Some x))
      [Navigate (Some y); Settle 0 (Response true); Settle 0 (Text h)] = Some c1
    /\ slug c1 = Some y
    /\ htmlContent (state c1) = h
    /\ pending c1 = [mkRun x AwaitCssFetch; mkRun y AwaitHtmlFetch]
    /\ run_events c1 [Settle 0 (Response true); Settle 0 (Text k)] = Some c2
    /\ slug c2 = Some y
    /\ pending c2 = [mkRun y AwaitHtmlFetch]
    /\ render (state c2) = ContentView k h.
Proof.
  intros Hx Hy Hxy. rewrite (mount_on x Hx).
  assert (Hne : String.eqb y x = false).
  { apply String.eqb_neq. congruence. }
  unfold run_events at 1. unfold step at 1.
  cbn [slug same_slug]. rewrite Hne.
  unfold effect, no_slug, with_slug. cbn [slug]. rewrite Hy. cbn [negb].
  do 2 eexists. repeat split; reflexivity.
Qed.

Lemma late_response_is_applied_witness :
  exists c,
    run_events (mount (Some "a"))
      [Navigate (Some "b"); Settle 0 (Response true); Settle 0 (Text "<p>a</p>")] = Some c
    /\ slug c = Some "b"
    /\ htmlContent (state c) = "<p>a</p>".
Proof.
  destruct (late_response_is_applied "a" "b" "<p>a</p>" "" eq_refl eq_refl)
    as (c1 & _ & Hrun & Hs & Hh & _).
  - discriminate.
  - exists c1. repeat split; assumption.
Defined.

(** ** C4 *)

(** C4, as the claim states it, fails: with the markup of "a" fetched, a
    rejection of the stylesheet request puts the view into the failed
    state. *)
Lemma stylesheet_rejection_fails_view : ~ stylesheet_never_fails_view "a".
Proof.
  intros H.
  apply (H "<p>a</p>" (CssFetchRejected (mkError "Failed to fetch")) _
           "ページコンテンツの読み込みに失敗しました: Failed to fetch" eq_refl).
  reflexivity.
Qed.

(** C4, amended. For every identifier [x]: a markup request that fails
    (non-success status or rejection) gives the failed state. With the
    markup [h] fetched, a stylesheet request with a non-success status,
    or a successful one whose body is read, gives the ready state
    showing [h]; a stylesheet request that rejects, or whose body cannot
    be read, is caught by the same handler as a markup failure and gives
    the failed state. *)
Theorem readiness_by_markup_and_stylesheet_rejection (x h : string) (o : StylesheetOutcome) (err : JsError) :
  truthy x = true ->
  (exists c, step (mount (Some x)) (Settle 0 (Response false)) = Some c
             /\ render (state c) = ErrorView (loadFailed (htmlMissing x)))
  /\ (exists c, step (mount (Some x)) (Settle 0 (Rejects err)) = Some c
              /\ render (state c) = ErrorView (loadFailed err))
  /\ (exists c,
        run_events (mount (Some x))
          (Settle 0 (Response true) :: Settle 0 (Text h) :: stylesheet_events o) = Some c
        /\ pending c = []
        /\ render (state c) = view_after_stylesheet h o).
Proof.
  intros Hx. rewrite (mount_on x Hx).
  split; [|split].
  - eexists. split; reflexivity.
  - eexists. split; reflexivity.
  - destruct o; eexists; repeat split; reflexivity.
Qed.

Lemma readiness_by_markup_and_stylesheet_rejection_witness :
  exists c,
    run_events (mount (Some "a"))
      [Settle 0 (Response true); Settle 0 (Text "<p>a</p>"); Settle 0 (Response false)] = Some c
    /\ render (state c) = ContentView "" "<p>a</p>".
Proof.
  destruct (readiness_by_markup_and_stylesheet_rejection
              "a" "<p>a</p>" CssMissing (mkError "") eq_refl)
    as (_ & _ & c & Hrun & _ & Hv).
  exists c. split; [exact Hrun | exact Hv].
Defined.

(** ** One identifier, one invocation *)

Lemma step_settle_keeps (c c' : Component) (i : nat) (o : Settled) :
  step c (Settle i o) = Some c' ->
  slug c' = slug c /\ length (pending c') <= length (pending c).
Proof.
  simpl. destruct (pending c !! i) as [r|] eqn:Hr; [|discriminate].
  destruct r as [y []]; destruct o as [[]| |]; simpl; intros H;
    try discriminate H; injection H as <-; simpl; split; try reflexivity.
  all: try (rewrite length_insert; lia).
  all: rewrite length_delete by eauto; lia.
Qed.

(** While the route stays on [x] and at most one invocation is in flight,
    a trace does what its outcomes, delivered to that invocation, do. *)
Lemma single_invocation (x : string) (evs : list Event) :
  forall c0 c,
    slug c0 = Some x -> length (pending c0) <= 1 ->
    Forall (stays_on x) evs ->
    run_events c0 evs = Some c ->
    run_events c0 (map (Settle 0) (settles evs)) = Some c.
Proof.
  induction evs as [|ev evs IH]; intros c0 c Hs Hp Hevs Hrun; [exact Hrun|].
  inversion Hevs as [|? ? Hev Hevs']; subst.
  destruct ev as [s|i o].
  - simpl in Hev. subst s. change (run_events c0 (Navigate (Some x) :: evs))
      with (match step c0 (Navigate (Some x)) with
            | Some c' => run_events c' evs | None => None end) in Hrun.
    rewrite (step_navigate_same c0 x Hs) in Hrun. now apply IH.
  - change (run_events c0 (Settle i o :: evs))
      with (match step c0 (Settle i o) with
            | Some c' => run_events c' evs | None => None end) in Hrun.
    change (settles (Settle i o :: evs)) with (o :: settles evs).
    change (run_events c0 (map (Settle 0) (o :: settles evs)))
      with (match step c0 (Settle 0 o) with
            | Some c' => run_events c' (map (Settle 0) (settles evs))
            | None => None end).
    assert (Hi : i = 0).
    { destruct i as [|i]; [reflexivity|]. exfalso.
      unfold step in Hrun.
      rewrite (lookup_ge_None_2 (pending c0) (S i)) in Hrun by lia.
      discriminate. }
    subst i.
    destruct (step c0 (Settle 0 o)) as [c1|] eqn:Hstep; [|discriminate].
    destruct (step_settle_keeps _ _ _ _ Hstep) as [Hs1 Hp1].
    apply IH; [congruence | lia | assumption | assumption].
Qed.

Lemma single_identifier_trace (x : string) (evs : list Event) (c : Component) :
  truthy x = true ->
  Forall (stays_on x) evs ->
  run_events (mount (Some x)) evs = Some c ->
  outcome_of x (settles evs) = Some c.
Proof.
  intros Hx Hevs Hrun. unfold outcome_of.
  apply (single_invocation x); try assumption.
  all: rewrite (mount_on x Hx); simpl; auto.
Qed.

(** Case analysis on the next outcome an invocation receives; the
    hypothesis [H] is the equation of [outcome_of], already unfolded. *)
Ltac next_outcome H os :=
  destruct os as [|[[|]| |] os]; cbn in H;
  [injection H as <- | try discriminate H ..].

(** The component after any outcomes: still loading with the invocation in
    flight, or failed, or ready after the markup and the stylesheet
    request. *)
Lemma outcome_phases (x : string) (os : list Settled) (c : Component) :
  truthy x = true ->
  outcome_of x os = Some c ->
  (isLoading (state c) = true
   /\ exists a, pending c = [mkRun x a])
  \/ (isLoading (state c) = false /\ pending c = []
      /\ exists err, error (state c) = Some (loadFailed err))
  \/ (isLoading (state c) = false /\ pending c = []
      /\ error (state c) = None
      /\ requested (htmlUrl x) c /\ requested (cssUrl x) c).
Proof.
  intros Hx H. unfold outcome_of in H. rewrite (mount_on x Hx) in H.
  unfold requested.
  next_outcome H os.
  all: try next_outcome H os.
  all: try next_outcome H os.
  all: try next_outcome H os.
  all: try next_outcome H os.
  all: cbn.
  all: first
    [ left; split; [reflexivity|]; eexists; reflexivity
    | right; left; split; [reflexivity|]; split; [reflexivity|]; eexists; reflexivity
    | right; right; repeat split; auto ].
Qed.

(** The stylesheet request is in the log only after a successful markup
    response and its body. *)
Lemma stylesheet_requested_after_markup (x : string) (os : list Settled) (c : Component) :
  truthy x = true ->
  outcome_of x os = Some c ->
  requested (cssUrl x) c ->
  exists h rest, os = Response true :: Text h :: rest.
Proof.
  intros Hx H. unfold outcome_of in H. rewrite (mount_on x Hx) in H.
  unfold requested.
  next_outcome H os.
  all: try next_outcome H os.
  all: try (intros _; eexists _, _; reflexivity).
  all: try next_outcome H os.
  all: cbn [effects In]; intros Hin.
  all: repeat (destruct Hin as [Hin|Hin];
               [first [discriminate Hin
                      |apply Fetch_inj in Hin; symmetry in Hin;
                       destruct (urls_differ _ _ Hin)]|]).
  all: contradiction.
Qed.

(** ** C8 *)

(** A mount on [x] whose first outcome is not a successful markup
    response has ended, failed. *)
Lemma markup_failure_ends_failed (x : string) (o : Settled) (rest : list Settled) (c : Component) :
  truthy x = true ->
  outcome_of x (o :: rest) = Some c ->
  o <> Response true ->
  isLoading (state c) = false
  /\ pending c = []
  /\ exists err, error (state c) = Some (loadFailed err).
Proof.
  intros Hx H Ho. unfold outcome_of in H. rewrite (mount_on x Hx) in H.
  destruct o as [[|]| |]; [now destruct Ho | | |]; cbn in H; try discriminate H.
  all: next_outcome H rest.
  all: split; [reflexivity|]; split; [reflexivity|]; eexists; reflexivity.
Qed.

(** C8, as the claim states it, fails: mounted on "a", the route changes
    to "b" and the requests of "a" then finish; the view has left the
    loading state and shows content while the markup request of "b", the
    identifier it is on, is still outstanding. *)
Lemma content_shown_with_request_outstanding : ~ ready_only_when_resolved "b".
Proof.
  intros H.
  destruct (H (Some "a")
              [Navigate (Some "b"); Settle 0 (Response true); Settle 0 (Text "<p>a</p>");
               Settle 0 (Response false)]
              _ "" "<p>a</p>" eq_refl eq_refl eq_refl) as [[_ Hout] _].
  apply Hout. unfold outstanding. cbn. left. reflexivity.
Qed.

(** C8, amended. For every non-empty identifier [x], at every point of a
    mount whose route stays on [x]: the view has left the loading state
    only if no request is outstanding; it shows content only if both the
    markup request and the stylesheet request were made and have
    resolved; and if the markup request failed (its first outcome is a
    non-success status or a rejection), the view has left loading for
    the error view with the stylesheet request never made. *)
Theorem loading_left_with_nothing_outstanding (x : string) (evs : list Event) (c : Component) :
  truthy x = true ->
  Forall (stays_on x) evs ->
  run_events (mount (Some x)) evs = Some c ->
  (isLoading (state c) = false -> forall url, ~ outstanding url c)
  /\ (forall k h, render (state c) = ContentView k h ->
                  resolved (htmlUrl x) c /\ resolved (cssUrl x) c)
  /\ (forall o rest, settles evs = o :: rest -> o <> Response true ->
                     isLoading (state c) = false
                     /\ (exists m, render (state c) = ErrorView m)
                     /\ ~ requested (cssUrl x) c).
Proof.
  intros Hx Hevs Hrun.
  apply (single_identifier_trace x evs c Hx Hevs) in Hrun.
  split; [|split].
  - unfold outstanding.
    destruct (outcome_phases x _ c Hx Hrun)
      as [(Hl & a & Hp) | [(Hl & Hp & err & He) | (Hl & Hp & He & Hh & Hc)]];
      rewrite Hl, Hp; simpl; [discriminate | tauto | tauto].
  - unfold resolved, outstanding, render.
    destruct (outcome_phases x _ c Hx Hrun)
      as [(Hl & a & Hp) | [(Hl & Hp & err & He) | (Hl & Hp & He & Hh & Hc)]];
      rewrite Hl, Hp; simpl.
    + intros k h Hv. discriminate Hv.
    + intros k h Hv. rewrite He, truthy_loadFailed in Hv. discriminate Hv.
    + intros k h _. tauto.
  - intros o rest Hos Ho. rewrite Hos in Hrun.
    destruct (markup_failure_ends_failed x o rest c Hx Hrun Ho) as (Hl & Hp & err & He).
    split; [exact Hl|]. split.
    + exists (loadFailed err). unfold render. now rewrite Hl, He, truthy_loadFailed.
    + intros Hreq.
      destruct (stylesheet_requested_after_markup x _ c Hx Hrun Hreq) as (h & rest' & Heq).
      congruence.
Qed.

Lemma loading_left_with_nothing_outstanding_witness :
  exists c,
    run_events (mount (Some "a"))
      [Settle 0 (Response true); Settle 0 (Text "<p>a</p>"); Settle 0 (Response false)] = Some c
    /\ render (state c) = ContentView "" "<p>a</p>"
    /\ resolved (htmlUrl "a") c /\ resolved (cssUrl "a") c.
Proof.
  eexists. split; [reflexivity|]. split; [reflexivity|].
  apply (proj1 (proj2 (loading_left_with_nothing_outstanding "a"
                         [Settle 0 (Response true); Settle 0 (Text "<p>a</p>");
                          Settle 0 (Response false)]
                         _ eq_refl ltac:(repeat constructor) eq_refl)) "" "<p>a</p>").
  reflexivity.
Defined.

(** ** C10 *)

(** C10. For every identifier [x], at every point of a mount that stays
    on [x]: if the stylesheet request has been made, then the first
    outcome delivered was a markup response with a success status and the
    second the markup body; and if the first outcome delivered is anything
    else (a non-success status or a rejection), the stylesheet request is
    not in the log, whatever follows. *)
Theorem stylesheet_requested_only_after_markup_success (x : string) (evs : list Event) (c : Component) :
  truthy x = true ->
  Forall (stays_on x) evs ->
  run_events (mount (Some x)) evs = Some c ->
  (requested (cssUrl x) c -> exists h rest, settles evs = Response true :: Text h :: rest)
  /\ (forall o rest, settles evs = o :: rest -> o <> Response true ->
                     ~ requested (cssUrl x) c).
Proof.
  intros Hx Hevs Hrun.
  apply (single_identifier_trace x evs c Hx Hevs) in Hrun.
  pose proof (stylesheet_requested_after_markup x _ c Hx Hrun) as Hcss.
  split; [exact Hcss|].
  intros o rest Hos Ho Hreq.
  destruct (Hcss Hreq) as (h & rest' & Heq). congruence.
Qed.

Lemma stylesheet_requested_only_after_markup_success_witness :
  exists c,
    run_events (mount (Some "a")) [Settle 0 (Response false)] = Some c
    /\ ~ requested (cssUrl "a") c.
Proof.
  eexists. split; [reflexivity|].
  apply (proj2 (stylesheet_requested_only_after_markup_success "a"
                  [Settle 0 (Response false)] _ eq_refl ltac:(repeat constructor) eq_refl)
           (Response false) [] eq_refl).
  discriminate.
Defined.

End UserPageProps.

(** * Properties of the list view *)
Module HomePageProps.
Import HomePage.

Lemma or_default_truthy (s d : string) : truthy d = true -> truthy (or_default s d) = true.
Proof. intros Hd. unfold or_default. destruct (truthy s) eqn:Hs; assumption. Qed.

Lemma truthy_nonempty (s : string) : truthy s = true -> s <> "".
Proof. intros H ->. discriminate H. Qed.

Lemma mapM_link_strings (l : list string) :
  mapM link (JStr <$> l) = Some (link_to <$> l).
Proof.
  induction l as [|s l IH]; [reflexivity|].
  cbn. cbn in IH. rewrite IH. reflexivity.
Qed.

(** ** C5 *)

(** C5. For every list [l] of identifier strings the list resource
    returns with a success status, the view has exactly one link per
    identifier, in the order of [l], each with the target /users/<id> and
    the identifier as its text; an empty [l] gives the empty view and a
    non-empty one the grid of these links. *)
Theorem list_renders_one_link_per_identifier (l : list string) :
  exists c v,
    run_events mount [Response true; Json (JArr (JStr <$> l))] = Some c
    /\ render (state c) = Some v
    /\ v = match l with [] => EmptyView | _ => ListView (link_to <$> l) end
    /\ links_of v = link_to <$> l
    /\ href <$> links_of v = (fun s => "/users/" +:+ s) <$> l
    /\ length (links_of v) = length l.
Proof.
  eexists. exists (match l with [] => EmptyView | _ => ListView (link_to <$> l) end).
  split; [reflexivity|].
  split; [|split; [reflexivity|]].
  - destruct l as [|s l]; [reflexivity|].
    unfold render. cbn -[mapM link].
    exact (f_equal (fmap ListView) (mapM_link_strings (s :: l))).
  - destruct l as [|s l]; cbn [links_of]; [repeat split|].
    split; [reflexivity|]. split.
    + rewrite <- list_fmap_compose. reflexivity.
    + now rewrite length_fmap.
Qed.

(** The list of the specification's example. *)
Example two_members_two_links :
  render <$> (state <$> run_events mount [Response true; Json (JArr [JStr "a"; JStr "b"])]) =
    Some (Some (ListView [ {| key := JStr "a"; href := "/users/a"; label := JStr "a" |};
                           {| key := JStr "b"; href := "/users/b"; label := JStr "b" |} ])).
Proof. reflexivity. Qed.

(** ** C6 *)

(** C6. When the list resource responds with a success status and the
    empty array, the view is the empty-state paragraph and the state holds
    no error. *)
Theorem empty_list_renders_empty_state :
  exists c,
    run_events mount [Response true; Json (JArr [])] = Some c
    /\ render (state c) = Some EmptyView
    /\ error (state c) = None
    /\ isLoading (state c) = false.
Proof. eexists. repeat split; reflexivity. Qed.

(** ** C7 *)

(** C7, as the claim states it, fails: the body [[1]] is JSON but not an
    array of strings; it is stored as it is and no failure is reported
    (the view is a grid with one link, to /users/1). *)
Lemma unchecked_body_is_not_a_failure :
  is_string_array (JArr [JNum "1"]) = false
  /\ ~ failure_reported [Response true; Json (JArr [JNum "1"])].
Proof.
  split; [reflexivity|].
  intros (c & m & Hrun & Hv & _).
  injection Hrun as <-. discriminate Hv.
Qed.

(** A body that is JSON of another shape altogether: the object [{}] is
    stored too, and rendering it throws. *)
Example object_body_breaks_render :
  render <$> (state <$> run_events mount [Response true; Json (JObj [])]) = Some None.
Proof. reflexivity. Qed.

(** C7, amended. If the list resource responds with a non-success status,
    or its body is not JSON (so that [response.json()] rejects), the view
    enters the failed state with a non-empty message, with the one
    request of the mount made and nothing in flight, and no outcome can be
    delivered any more: there is no retry. *)
Theorem list_failure_is_reported_once (f : ListFailure) :
  exists c m,
    run_events mount (failure_events f) = Some c
    /\ render (state c) = Some (ErrorView m)
    /\ m <> ""
    /\ pending c = None
    /\ (exists err, effects c = [Fetch listUrl; ConsoleError "ユーザーリストのフェッチエラー:" err])
    /\ forall o, step c o = None.
Proof.
  destruct f as [|err].
  - do 2 eexists. split; [reflexivity|]. split; [reflexivity|].
    split; [discriminate|]. split; [reflexivity|]. split; [eexists; reflexivity|].
    reflexivity.
  - assert (Ht : truthy (or_default (message err) unknownFailure) = true)
      by now apply or_default_truthy.
    do 2 eexists. split; [reflexivity|]. split.
    + unfold render. cbn [state isLoading error update finally catch with_pending emit
                          setIsLoading setError].
      rewrite Ht. reflexivity.
    + split; [exact (truthy_nonempty _ Ht)|]. split; [reflexivity|].
      split; [eexists; reflexivity|]. reflexivity.
Qed.

End HomePageProps.

(** * Further properties of the detail view *)
Module UserPageMore.
Import UserPage UserPageProps.

Lemma run_events_cons (c : Component) (ev : Event) (evs : list Event) :
  run_events c (ev :: evs) =
    match step c ev with
    | Some c' => run_events c' evs
    | None => None
    end.
Proof. reflexivity. Qed.

Lemma run_events_app (evs1 evs2 : list Event) :
  forall c,
    run_events c (evs1 ++ evs2) =
      match run_events c evs1 with
      | Some c' => run_events c' evs2
      | None => None
      end.
Proof.
  induction evs1 as [|ev evs1 IH]; intros c; [reflexivity|].
  simpl. destruct (step c ev); [apply IH | reflexivity].
Qed.

(** The route changes to another identifier: the effect runs again. *)
Lemma step_navigate_new (c : Component) (x y : string) :
  slug c = Some x -> x <> y -> truthy y = true ->
  step c (Navigate (Some y)) = Some (fetchUserPageContent y (with_slug (Some y) c)).
Proof.
  intros Hs Hxy Hy. simpl. rewrite Hs. simpl.
  replace (String.eqb y x) with false
    by (symmetry; apply String.eqb_neq; congruence).
  unfold effect, no_slug. simpl. now rewrite Hy.
Qed.

(** ** What holds after every trace *)

Lemma coherent_mount (s : option string) : coherent (mount s).
Proof.
  unfold mount, effect. cbn [slug].
  destruct (no_slug s) eqn:Hs; [split; [discriminate | reflexivity]|].
  destruct s as [x|]; [|discriminate Hs].
  split; [discriminate | discriminate].
Qed.

Lemma insert_not_nil (l : list Run) (i : nat) (r r' : Run) :
  l !! i = Some r -> <[i:=r']> l <> [].
Proof.
  intros Hl Hnil. apply (f_equal length) in Hnil.
  rewrite length_insert in Hnil. destruct l; [discriminate Hl | discriminate Hnil].
Qed.

Lemma coherent_step (c c' : Component) (ev : Event) :
  coherent c -> step c ev = Some c' -> coherent c'.
Proof.
  intros [He Hl] Hstep. destruct ev as [s|i o].
  - simpl in Hstep. destruct (same_slug s (slug c)).
    + injection Hstep as <-. now split.
    + injection Hstep as <-. unfold effect. cbn [slug with_slug].
      destruct (no_slug s).
      * split; [exact He | reflexivity].
      * destruct s as [y|]; [|now split].
        split; [discriminate|]. cbn. intros Hnil.
        now apply app_eq_nil in Hnil as [_ Hnil].
  - simpl in Hstep. destruct (pending c !! i) as [r|] eqn:Hr; [|discriminate].
    destruct r as [y []]; destruct o as [[]| |]; simpl in Hstep;
      try discriminate Hstep; injection Hstep as <-; split; cbn.
    all: try exact He.
    all: try (intros m Hm; injection Hm as <-; eexists; reflexivity).
    all: try reflexivity.
    all: intros Hnil; destruct (insert_not_nil _ _ _ _ Hr Hnil).
Qed.

Lemma coherent_run (evs : list Event) :
  forall c c', coherent c -> run_events c evs = Some c' -> coherent c'.
Proof.
  induction evs as [|ev evs IH]; intros c c' Hc Hrun.
  - injection Hrun as <-. exact Hc.
  - rewrite run_events_cons in Hrun.
    destruct (step c ev) as [c1|] eqn:Hstep; [|discriminate].
    eauto using coherent_step.
Qed.

(** X1. Whatever the identifiers visited and whatever the order in which
    the responses arrive, an error held in the state was built by the
    [catch] block of [fetchUserPageContent]: it is never the empty
    string, and once the loading flag is down it is what the view
    shows. *)
Theorem shown_error_comes_from_catch
    (s : option string) (evs : list Event) (c : Component) (m : string) :
  run_events (mount s) evs = Some c ->
  error (state c) = Some m ->
  (exists err, m = loadFailed err)
  /\ m <> ""
  /\ (isLoading (state c) = false -> render (state c) = ErrorView m).
Proof.
  intros Hrun Hm.
  destruct (coherent_run evs _ _ (coherent_mount s) Hrun) as [He _].
  destruct (He m Hm) as [err ->].
  split; [eauto|]. split; [discriminate|].
  intros Hl. unfold render. rewrite Hl, Hm. reflexivity.
Qed.

Lemma shown_error_comes_from_catch_witness :
  exists c,
    run_events (mount (Some "a"))
      [Navigate (Some "b"); Settle 1 (Rejects (mkError "")); Settle 0 (Response true)] = Some c
    /\ render (state c) = ErrorView "ページコンテンツの読み込みに失敗しました: 不明なエラー".
Proof.
  eexists. split; [reflexivity|].
  apply (shown_error_comes_from_catch (Some "a")
           [Navigate (Some "b"); Settle 1 (Rejects (mkError "")); Settle 0 (Response true)]
           _ _ eq_refl eq_refl).
  reflexivity.
Defined.

(** X2. Whatever the identifiers visited and whatever the order in which
    the responses arrive, the view shows loading only while an invocation
    is in flight: with none left, the loading flag is down. *)
Theorem never_loading_with_nothing_in_flight
    (s : option string) (evs : list Event) (c : Component) :
  run_events (mount s) evs = Some c ->
  pending c = [] ->
  isLoading (state c) = false /\ render (state c) <> LoadingView.
Proof.
  intros Hrun Hp.
  destruct (coherent_run evs _ _ (coherent_mount s) Hrun) as [_ Hl].
  specialize (Hl Hp). split; [exact Hl|].
  unfold render. rewrite Hl.
  destruct (error (state c)) as [e|]; [destruct (truthy e)|]; discriminate.
Qed.

Lemma never_loading_with_nothing_in_flight_witness :
  exists c,
    run_events (mount (Some "a"))
      [Navigate (Some "b"); Settle 1 (Response false); Settle 0 (Rejects (mkError "x"))] = Some c
    /\ isLoading (state c) = false.
Proof.
  eexists. split; [reflexivity|].
  apply (never_loading_with_nothing_in_flight (Some "a")
           [Navigate (Some "b"); Settle 1 (Response false); Settle 0 (Rejects (mkError "x"))]
           _ eq_refl eq_refl).
Defined.

(** ** Both requests succeed *)

(** X3. For every identifier [x]: when the markup request and the
    stylesheet request both resolve with a success status and the bodies
    [h] and [k], the view shows loading until the stylesheet body is
    there and then the content view of [k] and [h]; the two requests are
    all there is in the effect log (nothing is written to the console). *)
Theorem both_loaded_renders_both (x h k : string) :
  truthy x = true ->
  exists c,
    run_events (mount (Some x)) (success_events 0 h k) = Some c
    /\ views (mount (Some x)) (success_events 0 h k) =
         [LoadingView; LoadingView; LoadingView; ContentView k h]
    /\ state c = {| htmlContent := h; cssContent := k; isLoading := false; error := None |}
    /\ effects c = [Fetch (htmlUrl x); Fetch (cssUrl x)]
    /\ pending c = [].
Proof.
  intros Hx. rewrite (mount_on x Hx). eexists. repeat split; reflexivity.
Qed.

Lemma both_loaded_renders_both_witness :
  exists c,
    run_events (mount (Some "tanaka")) (success_events 0 "<h1>T</h1>" "h1{color:red}") = Some c
    /\ render (state c) = ContentView "h1{color:red}" "<h1>T</h1>".
Proof.
  destruct (both_loaded_renders_both "tanaka" "<h1>T</h1>" "h1{color:red}" eq_refl)
    as (c & Hrun & _ & Hst & _).
  exists c. split; [exact Hrun|]. rewrite Hst. reflexivity.
Defined.

(** ** Two identifiers *)

(** X4. For identifiers [x] and [y] with [x] distinct from [y]: the route
    changes from [x] to [y] before anything arrives; the responses of [y]
    arrive first and the view shows the content of [y]; the responses of
    [x] arrive afterwards and replace it. With nothing left in flight the
    view shows the content of [x] under the identifier [y], and stays so
    for as long as the route stays on [y]: the invocation that finishes
    last decides what is shown. *)
Theorem last_invocation_to_finish_wins (x y hx kx hy ky : string) :
  truthy x = true -> truthy y = true -> x <> y ->
  exists c1 c2,
    run_events (mount (Some x)) (Navigate (Some y) :: success_events 1 hy ky) = Some c1
    /\ render (state c1) = ContentView ky hy
    /\ pending c1 = [mkRun x AwaitHtmlFetch]
    /\ run_events c1 (success_events 0 hx kx) = Some c2
    /\ slug c2 = Some y
    /\ pending c2 = []
    /\ render (state c2) = ContentView kx hx
    /\ forall evs c', Forall (stays_on y) evs -> run_events c2 evs = Some c' -> c' = c2.
Proof.
  intros Hx Hy Hxy. rewrite (mount_on x Hx), run_events_cons.
  erewrite (step_navigate_new _ x y); [|reflexivity|exact Hxy|exact Hy].
  do 2 eexists. split; [reflexivity|]. do 6 (split; [reflexivity|]).
  intros evs c' Hevs Hrun.
  eapply idle_is_final; [| |exact Hevs|exact Hrun]; reflexivity.
Qed.

Lemma last_invocation_to_finish_wins_witness :
  exists c,
    run_events (mount (Some "a"))
      (Navigate (Some "b") :: success_events 1 "<p>b</p>" "" ++ success_events 0 "<p>a</p>" "")
    = Some c
    /\ slug c = Some "b"
    /\ render (state c) = ContentView "" "<p>a</p>".
Proof.
  destruct (last_invocation_to_finish_wins "a" "b" "<p>a</p>" "" "<p>b</p>" "" eq_refl eq_refl)
    as (c1 & c2 & H1 & _ & _ & H2 & Hs & _ & Hv & _).
  - discriminate.
  - exists c2. split; [|split; [exact Hs | exact Hv]].
    rewrite app_comm_cons, run_events_app, H1. exact H2.
Defined.

(** X5. For identifiers [x] and [y] with [x] distinct from [y]: when the
    route changes from [x] to [y] before anything arrives and the
    responses of [x] all arrive before those of [y], the view ends with
    the content of [y] and nothing in flight. *)
Theorem invocations_finishing_in_order (x y hx kx hy ky : string) :
  truthy x = true -> truthy y = true -> x <> y ->
  exists c,
    run_events (mount (Some x))
      (Navigate (Some y) :: success_events 0 hx kx ++ success_events 0 hy ky) = Some c
    /\ slug c = Some y
    /\ pending c = []
    /\ render (state c) = ContentView ky hy
    /\ fetches (effects c) = [htmlUrl x; htmlUrl y; cssUrl x; cssUrl y].
Proof.
  intros Hx Hy Hxy. rewrite (mount_on x Hx), run_events_cons.
  erewrite (step_navigate_new _ x y); [|reflexivity|exact Hxy|exact Hy].
  exists {| slug := Some y;
            state := {| htmlContent := hy; cssContent := ky;
                        isLoading := false; error := None |};
            pending := [];
            effects := [Fetch (htmlUrl x); Fetch (htmlUrl y);
                        Fetch (cssUrl x); Fetch (cssUrl y)] |}.
  split; [reflexivity|]. repeat split.
Qed.

Lemma invocations_finishing_in_order_witness :
  exists c,
    run_events (mount (Some "a"))
      (Navigate (Some "b") :: success_events 0 "<p>a</p>" "" ++ success_events 0 "<p>b</p>" "")
    = Some c
    /\ render (state c) = ContentView "" "<p>b</p>".
Proof.
  destruct (invocations_finishing_in_order "a" "b" "<p>a</p>" "" "<p>b</p>" "" eq_refl eq_refl)
    as (c & Hrun & _ & _ & Hv & _).
  - discriminate.
  - exists c. split; [exact Hrun | exact Hv].
Defined.

(** X6. For identifiers [x] and [y] with [x] distinct from [y]: the
    route changes from [x] to [y] before anything arrives, the requests
    of [y] succeed and the view shows the content of [y]; when the markup
    request of [x] then resolves with a non-success status, the view
    turns to the error view naming the path of [x], with nothing left in
    flight. The markup of [y] is still held in the state but not
    shown. *)
Theorem late_failure_replaces_content (x y hy ky : string) :
  truthy x = true -> truthy y = true -> x <> y ->
  exists c1 c2,
    run_events (mount (Some x)) (Navigate (Some y) :: success_events 1 hy ky) = Some c1
    /\ render (state c1) = ContentView ky hy
    /\ step c1 (Settle 0 (Response false)) = Some c2
    /\ slug c2 = Some y
    /\ pending c2 = []
    /\ render (state c2) = ErrorView (loadFailed (htmlMissing x))
    /\ htmlContent (state c2) = hy.
Proof.
  intros Hx Hy Hxy. rewrite (mount_on x Hx), run_events_cons.
  erewrite (step_navigate_new _ x y); [|reflexivity|exact Hxy|exact Hy].
  do 2 eexists. repeat split; reflexivity.
Qed.

Lemma late_failure_replaces_content_witness :
  exists c,
    run_events (mount (Some "a"))
      (Navigate (Some "b") :: success_events 1 "<p>b</p>" "" ++ [Settle 0 (Response false)])
    = Some c
    /\ slug c = Some "b"
    /\ render (state c) =
         ErrorView "ページコンテンツの読み込みに失敗しました: HTMLファイルが見つかりません: /user_pages/a/index.html".
Proof.
  destruct (late_failure_replaces_content "a" "b" "<p>b</p>" "" eq_refl eq_refl)
    as (c1 & c2 & H1 & _ & H2 & Hs & _ & Hv & _).
  - discriminate.
  - exists c2. split; [|split; [exact Hs | exact Hv]].
    rewrite app_comm_cons, run_events_app, H1, run_events_cons, H2. reflexivity.
Defined.

(** X7. For identifiers [x] and [y] with [x] distinct from [y]: a failure
    to load the markup of [x] does not outlive the identifier. When the
    route changes to [y] the error is cleared and the view shows loading
    again, one request for the markup of [y] is made, and when the
    requests of [y] succeed the view shows the content of [y]. *)
Theorem failure_cleared_by_new_identifier (x y h k : string) :
  truthy x = true -> truthy y = true -> x <> y ->
  exists c1 c2 c3,
    step (mount (Some x)) (Settle 0 (Response false)) = Some c1
    /\ render (state c1) = ErrorView (loadFailed (htmlMissing x))
    /\ step c1 (Navigate (Some y)) = Some c2
    /\ render (state c2) = LoadingView
    /\ error (state c2) = None
    /\ effects c2 = (effects c1 ++ [Fetch (htmlUrl y)])%list
    /\ run_events c2 (success_events 0 h k) = Some c3
    /\ render (state c3) = ContentView k h.
Proof.
  intros Hx Hy Hxy. rewrite (mount_on x Hx).
  eexists _, _, _. split; [reflexivity|]. split; [reflexivity|].
  split; [apply (step_navigate_new _ x y); [reflexivity|exact Hxy|exact Hy]|].
  repeat split; reflexivity.
Qed.

Lemma failure_cleared_by_new_identifier_witness :
  exists c,
    run_events (mount (Some "a"))
      (Settle 0 (Response false) :: Navigate (Some "b") :: success_events 0 "<p>b</p>" "")
    = Some c
    /\ render (state c) = ContentView "" "<p>b</p>".
Proof.
  destruct (failure_cleared_by_new_identifier "a" "b" "<p>b</p>" "" eq_refl eq_refl)
    as (c1 & c2 & c3 & H1 & _ & H2 & _ & _ & _ & H3 & Hv).
  - discriminate.
  - exists c3. split; [|exact Hv].
    rewrite run_events_cons, H1, run_events_cons, H2. exact H3.
Defined.

(** ** One identifier: the effect log *)

(** The log and the error of a mount on [x] after any outcomes. *)
Lemma outcome_log (x : string) (os : list Settled) (c : Component) :
  truthy x = true ->
  outcome_of x os = Some c ->
  length os <= 4
  /\ (fetches (effects c) = [htmlUrl x] \/ fetches (effects c) = [htmlUrl x; cssUrl x])
  /\ match error (state c) with
     | Some m => exists err, console_errors (effects c) = [err] /\ m = loadFailed err
     | None => console_errors (effects c) = []
     end.
Proof.
  intros Hx H. unfold outcome_of in H. rewrite (mount_on x Hx) in H.
  next_outcome H os.
  all: try next_outcome H os.
  all: try next_outcome H os.
  all: try next_outcome H os.
  all: try next_outcome H os.
  all: cbn; split; [lia|]; split; [tauto|]; try reflexivity; eexists; split; reflexivity.
Qed.

(** X8. For every identifier [x], at every point of a mount that stays
    on [x]: at most four promises have settled, the markup path was
    requested exactly once and first, and the only other request there
    can be is one for the stylesheet path. No request is repeated. *)
Theorem at_most_two_requests (x : string) (evs : list Event) (c : Component) :
  truthy x = true ->
  Forall (stays_on x) evs ->
  run_events (mount (Some x)) evs = Some c ->
  length (settles evs) <= 4
  /\ (fetches (effects c) = [htmlUrl x] \/ fetches (effects c) = [htmlUrl x; cssUrl x]).
Proof.
  intros Hx Hevs Hrun.
  apply (single_identifier_trace x evs c Hx Hevs) in Hrun.
  destruct (outcome_log x _ c Hx Hrun) as (Hn & Hf & _). now split.
Qed.

Lemma at_most_two_requests_witness :
  exists c,
    run_events (mount (Some "a"))
      [Settle 0 (Response true); Navigate (Some "a"); Settle 0 (Text "<p>a</p>")] = Some c
    /\ fetches (effects c) = ["/user_pages/a/index.html"; "/user_pages/a/style.css"].
Proof.
  eexists. split; [reflexivity|].
  destruct (at_most_two_requests "a"
              [Settle 0 (Response true); Navigate (Some "a"); Settle 0 (Text "<p>a</p>")]
              _ eq_refl ltac:(repeat constructor) eq_refl) as [_ [Hf|Hf]].
  - discriminate Hf.
  - exact Hf.
Defined.

(** X9. For every identifier [x], at every point of a mount that stays
    on [x]: the state holds an error exactly when one error object was
    passed to [console.error], and the message held is the fixed prefix
    followed by that object's message (or by the fallback text when the
    object's message is empty); with no error held, [console.error] was
    not called. *)
Theorem failure_shown_iff_logged (x : string) (evs : list Event) (c : Component) :
  truthy x = true ->
  Forall (stays_on x) evs ->
  run_events (mount (Some x)) evs = Some c ->
  match error (state c) with
  | Some m =>
      exists err,
        console_errors (effects c) = [err]
        /\ m = "ページコンテンツの読み込みに失敗しました: "
               +:+ (if truthy (message err) then message err else "不明なエラー")
  | None => console_errors (effects c) = []
  end.
Proof.
  intros Hx Hevs Hrun.
  apply (single_identifier_trace x evs c Hx Hevs) in Hrun.
  destruct (outcome_log x _ c Hx Hrun) as (_ & _ & He). exact He.
Qed.

Lemma failure_shown_iff_logged_witness :
  exists c,
    run_events (mount (Some "a")) [Settle 0 (Rejects (mkError ""))] = Some c
    /\ error (state c) = Some "ページコンテンツの読み込みに失敗しました: 不明なエラー"
    /\ console_errors (effects c) = [mkError ""].
Proof.
  eexists. split; [reflexivity|]. split; [reflexivity|].
  pose proof (failure_shown_iff_logged "a" [Settle 0 (Rejects (mkError ""))]
                _ eq_refl ltac:(repeat constructor) eq_refl) as H.
  cbn in H. destruct H as (err & Herr & _). reflexivity.
Defined.

(** ** No identifier after a failure *)

Lemma no_slug_differs (x : string) (s : option string) :
  truthy x = true -> no_slug s = true -> same_slug s (Some x) = false.
Proof.
  intros Hx Hs. destruct s as [t|]; [|reflexivity].
  simpl in *. destruct (String.eqb t x) eqn:Heq; [|reflexivity].
  apply String.eqb_eq in Heq. subst t. rewrite Hx in Hs. discriminate Hs.
Qed.

(** X10. For every identifier [x]: after the markup of [x] failed to
    load, a route parameter that yields no identifier only lowers the
    loading flag. No request is made, and the error of [x] is still what
    the view shows. *)
Theorem failure_kept_without_identifier (x : string) (s : option string) :
  truthy x = true ->
  no_slug s = true ->
  exists c1 c2,
    step (mount (Some x)) (Settle 0 (Response false)) = Some c1
    /\ step c1 (Navigate s) = Some c2
    /\ slug c2 = s
    /\ effects c2 = effects c1
    /\ pending c2 = []
    /\ render (state c2) = ErrorView (loadFailed (htmlMissing x)).
Proof.
  intros Hx Hs. rewrite (mount_on x Hx).
  eexists _, _. split; [reflexivity|].
  split.
  - cbn [step slug catch finally update emit with_pending].
    rewrite (no_slug_differs x s Hx Hs).
    unfold effect. cbn [slug with_slug]. rewrite Hs. reflexivity.
  - repeat split.
Qed.

Lemma failure_kept_without_identifier_witness :
  exists c,
    run_events (mount (Some "a")) [Settle 0 (Response false); Navigate None] = Some c
    /\ render (state c) =
         ErrorView "ページコンテンツの読み込みに失敗しました: HTMLファイルが見つかりません: /user_pages/a/index.html".
Proof.
  destruct (failure_kept_without_identifier "a" None eq_refl eq_refl)
    as (c1 & c2 & H1 & H2 & _ & _ & _ & Hv).
  exists c2. split; [|exact Hv].
  rewrite run_events_cons, H1, run_events_cons, H2. reflexivity.
Defined.

(** ** The resource paths *)

Lemma length_append (s t : string) :
  String.length (s +:+ t) = String.length s + String.length t.
Proof. induction s as [|a s IH]; simpl; [reflexivity | now rewrite IH]. Qed.

Lemma append_inj_r (p : string) :
  forall s t, s +:+ p = t +:+ p -> s = t.
Proof.
  induction s as [|a s IH]; intros [|b t] H; simpl in H.
  - reflexivity.
  - apply (f_equal String.length) in H. rewrite !length_append in H. simpl in H. lia.
  - apply (f_equal String.length) in H. rewrite !length_append in H. simpl in H. lia.
  - injection H as -> H. f_equal. now apply IH.
Qed.

(** X11. The identifier is put into the two resource paths as it is:
    different identifiers have different markup paths and different
    stylesheet paths, and no stylesheet path is the markup path of any
    identifier. *)
Theorem resource_paths_are_distinct (x y : string) :
  (htmlUrl x = htmlUrl y -> x = y)
  /\ (cssUrl x = cssUrl y -> x = y)
  /\ cssUrl x <> htmlUrl y.
Proof.
  split; [|split].
  - unfold htmlUrl. intros H. apply append_inj_l in H. now apply append_inj_r in H.
  - unfold cssUrl. intros H. apply append_inj_l in H. now apply append_inj_r in H.
  - apply urls_differ.
Qed.

(** ** No guard on the route *)

(** X12. Responses are applied without regard to the current route
    parameter: for every component and every sequence of deliveries,
    what the deliveries do to the state variables, to the invocations in
    flight and to the effect log is the same whatever identifier the
    route is on, and whether they can be delivered at all is the same
    too. *)
Theorem responses_applied_whatever_the_route (ds : list (nat * Settled)) :
  forall (c : Component) (t : option string),
    run_events (with_slug t c) (deliveries ds) =
      with_slug t <$> run_events c (deliveries ds).
Proof.
  induction ds as [|[i o] ds IH]; intros c t; [reflexivity|].
  change (deliveries ((i, o) :: ds)) with (Settle i o :: deliveries ds).
  rewrite !run_events_cons, settle_ignores_route.
  destruct (step c (Settle i o)) as [c'|]; [apply IH | reflexivity].
Qed.

End UserPageMore.

(** * Further properties of the list view *)
Module HomePageMore.
Import HomePage HomePageProps.

(** Case analysis on the next outcome [fetchUsers] receives. *)
Ltac next_settled H os :=
  destruct os as [|[[|]| |] os]; cbn in H;
  [injection H as <- | try discriminate H ..].

(** The component of a mount after any outcomes. *)
Lemma list_outcome_phases (os : list Settled) (c : Component) :
  run_events mount os = Some c ->
  length os <= 2
  /\ fetches (effects c) = [listUrl]
  /\ ((isLoading (state c) = true /\ error (state c) = None
       /\ effects c = [Fetch listUrl] /\ exists a, pending c = Some a)
      \/ (isLoading (state c) = false /\ pending c = None
          /\ userSlugs (state c) = JArr []
          /\ exists err,
               error (state c) = Some (or_default (message err) unknownFailure)
               /\ console_errors (effects c) = [err])
      \/ (isLoading (state c) = false /\ pending c = None
          /\ error (state c) = None
          /\ effects c = [Fetch listUrl]
          /\ exists data, os = [Response true; Json data] /\ userSlugs (state c) = data)).
Proof.
  intros H. unfold mount in H.
  next_settled H os.
  all: try next_settled H os.
  all: try next_settled H os.
  all: cbn; split; [lia|]; split; [reflexivity|].
  all: first
    [ left; do 3 (split; [reflexivity|]); eexists; reflexivity
    | right; left; do 3 (split; [reflexivity|]); eexists; split; [|reflexivity]; reflexivity
    | right; right; do 4 (split; [reflexivity|]); eexists; split; reflexivity ].
Qed.

(** X13. Whatever the outcomes, a mount of the list view makes exactly
    one request, for /user_list.json, and at most two promises settle. *)
Theorem one_request_per_mount (os : list Settled) (c : Component) :
  run_events mount os = Some c ->
  fetches (effects c) = ["/user_list.json"] /\ length os <= 2.
Proof.
  intros H. destruct (list_outcome_phases os c H) as (Hn & Hf & _). now split.
Qed.

Lemma one_request_per_mount_witness :
  exists c,
    run_events mount [Response true; Rejects (mkError "Unexpected token")] = Some c
    /\ fetches (effects c) = ["/user_list.json"].
Proof.
  eexists. split; [reflexivity|].
  apply (one_request_per_mount [Response true; Rejects (mkError "Unexpected token")] _ eq_refl).
Defined.

(** X14. Whatever the outcomes, the list view shows loading exactly while
    [fetchUsers] is in flight, and once the loading flag is down no
    further outcome can be delivered: the view has reached its final
    state for this mount. *)
Theorem loading_exactly_while_in_flight (os : list Settled) (c : Component) :
  run_events mount os = Some c ->
  (isLoading (state c) = true <-> pending c <> None)
  /\ (render (state c) = Some LoadingView <-> pending c <> None)
  /\ (isLoading (state c) = false -> forall o, step c o = None).
Proof.
  intros H. unfold render, step.
  destruct (list_outcome_phases os c H)
    as (_ & _ & [(Hl & He & _ & a & Hp) | [(Hl & Hp & _ & err & He & _)
                                         | (Hl & Hp & He & _ & data & _ & Hd)]]);
    rewrite Hl, Hp.
  - repeat split; try discriminate; reflexivity.
  - rewrite He, (or_default_truthy _ _ (eq_refl : truthy unknownFailure = true)).
    repeat split; try discriminate; try reflexivity; intros Hn; now destruct Hn.
  - rewrite He. repeat split; try discriminate; try reflexivity;
      try (intros Hn; now destruct Hn).
    destruct (length_is_zero (userSlugs (state c))) as [[]|]; try discriminate.
    destruct (userSlugs (state c)); try discriminate.
    destruct (mapM link items); discriminate.
Qed.

Lemma loading_exactly_while_in_flight_witness :
  exists c,
    run_events mount [Response true] = Some c
    /\ render (state c) = Some LoadingView.
Proof.
  eexists. split; [reflexivity|].
  apply (proj1 (proj2 (loading_exactly_while_in_flight [Response true] _ eq_refl))).
  discriminate.
Defined.

(** X15. Whatever the outcomes, an error held by the list view is not the
    empty string, was logged once with [console.error], leaves the list
    as it was initially (empty), and is what the view shows once the
    loading flag is down; and when no error is held nothing was written
    to the console. *)
Theorem list_error_excludes_list (os : list Settled) (c : Component) :
  run_events mount os = Some c ->
  match error (state c) with
  | Some m =>
      m <> ""
      /\ userSlugs (state c) = JArr []
      /\ render (state c) = Some (ErrorView m)
      /\ exists err, console_errors (effects c) = [err]
                     /\ m = if truthy (message err) then message err else unknownFailure
  | None => console_errors (effects c) = []
  end.
Proof.
  intros H. unfold render.
  destruct (list_outcome_phases os c H)
    as (_ & Hf & [(Hl & He & Hlog & a & Hp) | [(Hl & Hp & Hu & err & He & Hc)
                                             | (Hl & Hp & He & Hlog & _)]]);
    rewrite He.
  - rewrite Hlog. reflexivity.
  - pose proof (or_default_truthy (message err) unknownFailure eq_refl) as Ht.
    rewrite Hl, Ht. split; [exact (truthy_nonempty _ Ht)|].
    split; [exact Hu|]. split; [reflexivity|]. exists err. now split.
  - rewrite Hlog. reflexivity.
Qed.

Lemma list_error_excludes_list_witness :
  exists c,
    run_events mount [Rejects (mkError "")] = Some c
    /\ render (state c) = Some (ErrorView unknownFailure).
Proof.
  eexists. split; [reflexivity|].
  pose proof (list_error_excludes_list [Rejects (mkError "")] _ eq_refl) as H.
  cbn in H. destruct H as (_ & _ & _ & _). reflexivity.
Defined.

(** X16. When the request for the list rejects (the network fails), the
    view enters the failed state and shows the message of the rejection
    as it is, or the fixed fallback text when that message is empty; the
    body is never asked for. *)
Theorem list_fetch_rejection_is_reported (err : JsError) :
  exists c,
    run_events mount [Rejects err] = Some c
    /\ render (state c) =
         Some (ErrorView (if truthy (message err) then message err else unknownFailure))
    /\ pending c = None
    /\ effects c = [Fetch listUrl; ConsoleError "ユーザーリストのフェッチエラー:" err]
    /\ forall o, step c o = None.
Proof.
  eexists. split; [reflexivity|].
  split; [|repeat split].
  unfold render. cbn [state isLoading error update finally catch with_pending emit
                      setIsLoading setError].
  rewrite (or_default_truthy (message err) unknownFailure eq_refl). reflexivity.
Qed.

(** X17. A body that is JSON but not an array is stored like any other:
    no error is set, and the view is the empty-state paragraph when the
    value's [length] is zero (the empty string, an object with a
    [length] property of 0) and otherwise rendering throws; it is never
    the error view. *)
Theorem non_array_body_is_not_reported (v : json) :
  (forall items, v <> JArr items) ->
  exists c,
    run_events mount [Response true; Json v] = Some c
    /\ error (state c) = None
    /\ userSlugs (state c) = v
    /\ render (state c) =
         match length_is_zero v with
         | Some true => Some EmptyView
         | _ => None
         end.
Proof.
  intros Hv. eexists. split; [reflexivity|]. repeat split.
  unfold render. cbn [state isLoading error userSlugs update finally with_pending
                      setIsLoading setUserSlugs].
  destruct (length_is_zero v) as [[]|] eqn:Hz; try reflexivity.
  destruct v; try reflexivity. destruct (Hv items eq_refl).
Qed.

Lemma non_array_body_is_not_reported_witness :
  exists c,
    run_events mount [Response true; Json (JObj [("members", JArr [JStr "a"])])] = Some c
    /\ error (state c) = None
    /\ render (state c) = None.
Proof.
  destruct (non_array_body_is_not_reported (JObj [("members", JArr [JStr "a"])]))
    as (c & Hrun & He & _ & Hv).
  - discriminate.
  - exists c. repeat split; assumption.
Defined.

End HomePageMore.
